(** * SDGPSR: the tracking channel and the acquisition threshold

    A shallow embedding of [src/TrackingChannel.cpp] and of the declarations
    of [src/SDGPSR.h].  A [TrackingChannel] owns a bank of [SignalTracker]
    objects, one per carrier-frequency bias of a fixed ladder, feeds every
    1 ms packet to all of them, drops the ones that report failure and
    collapses the bank to one tracker once the bank reports [fullTrack].

    [SignalTracker] is a collaborator known by its interface only, so it
    enters as a type class; the channel is ordinary list code over it. *)

From Stdlib Require Import List ZArith NArith Bool Lia Sorted QArith.
From Equations Require Import Equations.
Import ListNotations.
Local Open Scope Z_scope.

(** ** The tracking-state enumeration *)

(** Modelled from the spec: the enumeration [State] is declared in
    SignalTracker.h, which is not among the sources.  The spec gives it as
    an ordered enumeration {lossOfLock, ..., fullTrack} whose first
    enumerator is [lossOfLock]; C++ compares enumerators (and so does
    [std::max]) by their integer values, here [State_val]. *)
Class StateEnum := {
  State : Type;
  State_val : State -> Z;
  State_val_inj : forall a b : State, State_val a = State_val b -> a = b;
  lossOfLock : State;
  fullTrack : State;
  lossOfLock_least : forall s : State, State_val lossOfLock <= State_val s
}.

Section StateOrder.
Context `{StateEnum}.

(** [a == b] on enumerators. *)
Definition State_eqb (a b : State) : bool := State_val a =? State_val b.

(** [std::max(a, b)]: [b] when [a < b], otherwise [a]. *)
Definition State_max (a b : State) : State :=
  if State_val a <? State_val b then b else a.

Definition State_le (a b : State) : Prop := State_val a <= State_val b.
End StateOrder.

(** ** The collaborator: one tracking hypothesis *)

(** The contract of [SignalTracker] as [TrackingChannel.cpp] uses it.  The
  data types it exchanges ([double], [fftwVector], [SearchResult],
  [Vector3d], [complex<double>]) are only passed through by the channel
  and stay opaque.  A method that changes the object returns its new
  value. *)
Class SignalTrackerAPI `{StateEnum} := {
  Double : Type;
  fftwVector : Type;
  SearchResult : Type;
  Vector3d : Type;
  ComplexDouble : Type;
  SignalTracker : Type;
  SignalTracker_new : Double -> N -> SearchResult -> Z -> SignalTracker;
  tracker_processSamples : fftwVector -> SignalTracker -> bool * SignalTracker;
  tracker_state : SignalTracker -> State;
  tracker_sync : SignalTracker -> SignalTracker;
  tracker_transmitTime : SignalTracker -> Double;
  tracker_satellitePosition : SignalTracker -> Double -> Vector3d;
  tracker_latLong : SignalTracker -> Double -> ComplexDouble
}.

(** The packet counter [inputPackets_] is declared in TrackingChannel.h,
    which is not among the sources: its width is a parameter. *)
Class PacketCounter := { counter_bits : Z }.

Section Channel.
Context `{SignalTrackerAPI} `{PacketCounter}.

(** One element of [signalTrackers_]: the owned tracker object together
    with the bias it was constructed with.  The bias is carried as the
    object's identity; no operation of the channel changes it. *)
Record Hyp := { hyp_bias : Z; hyp_obj : SignalTracker }.

Record TrackingChannel := {
  signalTrackers_ : list Hyp;
  inputPackets_ : Z;
  prn_ : N
}.

Definition size (ch : TrackingChannel) : nat := length (signalTrackers_ ch).

Definition biases (ch : TrackingChannel) : list Z :=
  map hyp_bias (signalTrackers_ ch).

Definition hyp_state (h : Hyp) : State := tracker_state (hyp_obj h).

(** *** Constructor *)

(** [new SignalTracker(fs, prn, searchResult, i * 500)] *)
Definition new_hyp (fs : Double) (prn : N) (sr : SearchResult) (i : Z) : Hyp :=
  {| hyp_bias := i * 500; hyp_obj := SignalTracker_new fs prn sr (i * 500) |}.

(** Iterations left when the loop variable is [i]. *)
Definition rounds_left (i : Z) : nat := Z.to_nat (5 - i).

Lemma rounds_left_decr (i : Z) :
  i <= 4 -> (rounds_left (i + 1) < rounds_left i)%nat.
Proof. unfold rounds_left. lia. Qed.

(** [for (int i = ...; i <= 4; ++i) signalTrackers_.push_back(...)],
    entered with loop variable [i] and the trackers pushed so far. *)
Equations? ctor_loop (fs : Double) (prn : N) (sr : SearchResult)
    (i : Z) (pushed : list Hyp) : list Hyp by wf (rounds_left i) lt :=
  ctor_loop fs prn sr i pushed with Z_le_dec i 4 => {
    | left Hle := ctor_loop fs prn sr (i + 1) (pushed ++ [new_hyp fs prn sr i]);
    | right _ := pushed }.
Proof. now apply rounds_left_decr. Qed.

Definition TrackingChannel_new (fs : Double) (prn : N) (sr : SearchResult)
  : TrackingChannel :=
  {| signalTrackers_ := ctor_loop fs prn sr (-4) [];
     inputPackets_ := 0;
     prn_ := prn |}.

(** *** Accessors *)

Definition prn (ch : TrackingChannel) : N := prn_ ch.

(** [signalTrackers_.front()->m()]: [front()] of an empty container is
    undefined behaviour, rendered as [None]. *)
Definition front {A} (m : SignalTracker -> A) (ch : TrackingChannel) : option A :=
  match signalTrackers_ ch with
  | [] => None
  | h :: _ => Some (m (hyp_obj h))
  end.

Definition transmitTime (ch : TrackingChannel) : option Double :=
  front tracker_transmitTime ch.

Definition satellitePosition (ch : TrackingChannel) (timeOfWeek : Double)
  : option Vector3d :=
  front (fun t => tracker_satellitePosition t timeOfWeek) ch.

Definition latLong (ch : TrackingChannel) (timeOfWeek : Double)
  : option ComplexDouble :=
  front (fun t => tracker_latLong t timeOfWeek) ch.

(** [state()]: the loop folds [std::max] over the trackers, from
    [lossOfLock]. *)
Definition state_loop (l : list Hyp) (acc : State) : State :=
  fold_left (fun s h => State_max s (hyp_state h)) l acc.

Definition state (ch : TrackingChannel) : State :=
  state_loop (signalTrackers_ ch) lossOfLock.

(** *** sync *)

Definition sync_hyp (h : Hyp) : Hyp :=
  {| hyp_bias := hyp_bias h; hyp_obj := tracker_sync (hyp_obj h) |}.

Definition sync (ch : TrackingChannel) : TrackingChannel :=
  {| signalTrackers_ := map sync_hyp (signalTrackers_ ch);
     inputPackets_ := inputPackets_ ch;
     prn_ := prn_ ch |}.

(** *** processSamples *)

(** The first loop: each tracker receives the packet; the iterator
    erases the tracker when it answers [false] and steps over it
    otherwise. *)
Fixpoint dispatch (trackingData : fftwVector) (l : list Hyp) : list Hyp :=
  match l with
  | [] => []
  | h :: rest =>
      let (ok, t') := tracker_processSamples trackingData (hyp_obj h) in
      if ok
      then {| hyp_bias := hyp_bias h; hyp_obj := t' |} :: dispatch trackingData rest
      else dispatch trackingData rest
  end.

(** The second loop: erase every tracker with [state() != fullTrack]. *)
Fixpoint erase_unlocked (l : list Hyp) : list Hyp :=
  match l with
  | [] => []
  | h :: rest =>
      if State_eqb (hyp_state h) fullTrack
      then h :: erase_unlocked rest
      else erase_unlocked rest
  end.

Lemma removelast_shorter {A} (l : list A) :
  (1 < length l)%nat -> (length (removelast l) < length l)%nat.
Proof.
  intros Hl. destruct l as [|a l]; [simpl in Hl; lia|].
  induction l as [|b l IH] in a, Hl |- *; [simpl in Hl; lia|].
  destruct l as [|c l]; [simpl; lia|].
  specialize (IH b ltac:(simpl; lia)). simpl in *. lia.
Qed.

(** [while (signalTrackers_.size() > 1) signalTrackers_.pop_back();] *)
Equations? pop_back_loop (l : list Hyp) : list Hyp by wf (length l) lt :=
  pop_back_loop l with lt_dec 1 (length l) => {
    | left Hgt := pop_back_loop (removelast l);
    | right _ := l }.
Proof. now apply removelast_shorter. Qed.

(** [++inputPackets_] on a [counter_bits]-wide unsigned counter. *)
Definition counter_incr (n : Z) : Z := (n + 1) mod 2 ^ counter_bits.

Definition with_trackers (ch : TrackingChannel) (l : list Hyp) : TrackingChannel :=
  {| signalTrackers_ := l; inputPackets_ := inputPackets_ ch; prn_ := prn_ ch |}.

(** The channel after the first loop and the counter increment. *)
Definition dispatched (trackingData : fftwVector) (ch : TrackingChannel)
  : TrackingChannel :=
  {| signalTrackers_ := dispatch trackingData (signalTrackers_ ch);
     inputPackets_ := counter_incr (inputPackets_ ch);
     prn_ := prn_ ch |}.

(** The guard of the consensus block:
    [signalTrackers_.size() > 1 && state() == fullTrack]. *)
Definition consensus_guard (ch : TrackingChannel) : bool :=
  (1 <? size ch)%nat && State_eqb (state ch) fullTrack.

(** The body of the consensus block. *)
Definition consensus (ch : TrackingChannel) : TrackingChannel :=
  let ch1 := sync ch in
  let ch2 := with_trackers ch1 (erase_unlocked (signalTrackers_ ch1)) in
  with_trackers ch2 (pop_back_loop (signalTrackers_ ch2)).

(** The channel after the call. *)
Definition processSamples_channel (trackingData : fftwVector)
    (ch : TrackingChannel) : TrackingChannel :=
  let ch1 := dispatched trackingData ch in
  if consensus_guard ch1 then consensus ch1 else ch1.

(** [return signalTrackers_.size();] converted to [bool]. *)
Definition processSamples (trackingData : fftwVector) (ch : TrackingChannel)
  : bool * TrackingChannel :=
  let ch' := processSamples_channel trackingData ch in
  (negb (size ch' =? 0)%nat, ch').

End Channel.

(** ** Runs of a channel *)

Section Runs.
Context `{SignalTrackerAPI} `{PacketCounter}.

(** What a caller can do with a channel it holds. *)
Inductive Call :=
| CallProcessSamples (trackingData : fftwVector)
| CallSync.

Definition call (ch : TrackingChannel) (c : Call) : TrackingChannel :=
  match c with
  | CallProcessSamples d => snd (processSamples d ch)
  | CallSync => sync ch
  end.

Definition run (calls : list Call) (ch : TrackingChannel) : TrackingChannel :=
  fold_left call calls ch.

(** The channels a program can hold: a constructed one, then any calls. *)
Inductive reachable : TrackingChannel -> Prop :=
| reach_new fs prn sr : reachable (TrackingChannel_new fs prn sr)
| reach_call ch c : reachable ch -> reachable (call ch c).

(** The outcome of the one call the first loop makes on [h]. *)
Definition answer (trackingData : fftwVector) (h : Hyp) : bool * Hyp :=
  (fst (tracker_processSamples trackingData (hyp_obj h)),
   {| hyp_bias := hyp_bias h;
      hyp_obj := snd (tracker_processSamples trackingData (hyp_obj h)) |}).

Definition locked (h : Hyp) : bool := State_eqb (hyp_state h) fullTrack.

(** How many of the calls are calls of processSamples. *)
Definition is_processSamples (c : Call) : bool :=
  match c with CallProcessSamples _ => true | CallSync => false end.

Definition packets_fed (calls : list Call) : nat :=
  length (filter is_processSamples calls).

(** The ladder of the design: -4 .. +4 steps of 500 Hz. *)
Definition ladder : list Z :=
  [-2000; -1500; -1000; -500; 0; 500; 1000; 1500; 2000].
End Runs.

(** ** Acquisition search: the threshold decision *)

Module Search.
Local Open Scope Q_scope.

(** [const double SAT_FOUND_THRESH = 10.0;] (SDGPSR.h).  The value is an
    integer, so the rational 10 is the double 10.0. *)
Definition SAT_FOUND_THRESH : Q := 10.

(** One cell of the code-phase x frequency surface: the carrier
    frequency of its row, its code-phase offset and the magnitude
    accumulated there. *)
Record Bin := { bin_freq : Q; bin_code : nat; bin_mag : Q }.

(** The surface as the sweep fills it: one row of accumulated magnitudes
    per frequency hypothesis, in sweep order. *)
Definition Surface := list (Q * list Q).

Fixpoint row_bins (f : Q) (k : nat) (row : list Q) : list Bin :=
  match row with
  | [] => []
  | m :: row' => {| bin_freq := f; bin_code := k; bin_mag := m |}
                 :: row_bins f (S k) row'
  end.

Definition bins (s : Surface) : list Bin :=
  flat_map (fun fr => row_bins (fst fr) 0 (snd fr)) s.

(** Modelled from the spec: the acquisition output of section 3, "estimated
    code-phase offset, estimated carrier frequency offset, and a
    detection-confidence metric", with the flag that marks it valid.  The
    struct is declared in a header that is not among the sources. *)
Record SearchResult := {
  found : bool;
  codePhase : nat;
  frequency : Q;
  peak : Q;
  confidence : Q
}.

(** Running maximum: a cell replaces the best so far when it is strictly
    larger, so the first of several equal peaks is kept. *)
Definition stronger (best b : Bin) : Bin :=
  if Qlt_le_dec (bin_mag best) (bin_mag b) then b else best.

Definition no_peak : Bin := {| bin_freq := 0; bin_code := 0%nat; bin_mag := 0 |}.

Definition strongest (l : list Bin) : Bin := fold_left stronger l no_peak.

(** Modelled from the spec: the body of [SDGPSR::search] is in SDGPSR.cpp,
    which is not among the sources; SDGPSR.h only declares it.  Following
    section 4.1, the result is "the single (code-phase, frequency) bin with
    maximum accumulated magnitude, plus a confidence score (ratio of peak
    to the surface's mean or noise-floor estimate)", and "if confidence <
    SAT_FOUND_THRESH, the satellite is reported not found".  The surface
    is what the sweep over [freqStart .. freqStop] accumulated with the
    external correlator; [noise] is the mean or noise-floor estimate,
    which the spec leaves open.  Doubles are read as exact rationals. *)
Definition search (noise : Surface -> Q) (s : Surface) : SearchResult :=
  let best := strongest (bins s) in
  let conf := bin_mag best / noise s in
  {| found := if Qlt_le_dec conf SAT_FOUND_THRESH then false else true;
     codePhase := bin_code best;
     frequency := bin_freq best;
     peak := bin_mag best;
     confidence := conf |}.

(** The surface's mean, one reading of the noise-floor estimate. *)
Definition mean (s : Surface) : Q :=
  fold_left Qplus (map bin_mag (bins s)) 0 / inject_Z (Z.of_nat (length (bins s))).
End Search.

(** ** A scripted tracker, for running the channel on concrete inputs

  A tracker whose answers are laid down in advance: each packet consumes
  one entry [(sustain, state)] of its script, and [sync] moves it to
  [resync] when that is set.  The "search result" handed to the
  constructor is the table of scripts, one per bias. *)
Module Fixture.

Inductive TestState := tsLossOfLock | tsAcquiring | tsFullTrack.

Definition TestState_val (s : TestState) : Z :=
  match s with tsLossOfLock => 0 | tsAcquiring => 1 | tsFullTrack => 2 end.

Lemma TestState_val_inj (a b : TestState) :
  TestState_val a = TestState_val b -> a = b.
Proof. destruct a, b; simpl; intros E; congruence || discriminate E. Qed.

Lemma TestState_least (s : TestState) :
  TestState_val tsLossOfLock <= TestState_val s.
Proof. destruct s; simpl; lia. Qed.

Definition test_states : StateEnum :=
  {| State := TestState;
     State_val := TestState_val;
     State_val_inj := TestState_val_inj;
     lossOfLock := tsLossOfLock;
     fullTrack := tsFullTrack;
     lossOfLock_least := TestState_least |}.

Record Scripted := {
  cur : TestState;
  script : list (bool * TestState);
  resync : option TestState;
  clock : Z
}.

Definition scripted_process (_ : unit) (t : Scripted) : bool * Scripted :=
  match script t with
  | [] => (true, t)
  | (ok, s) :: rest =>
      (ok, {| cur := s; script := rest; resync := resync t; clock := clock t |})
  end.

Definition scripted_sync (t : Scripted) : Scripted :=
  match resync t with
  | None => t
  | Some s => {| cur := s; script := script t; resync := None; clock := clock t |}
  end.

Definition scripted : @SignalTrackerAPI test_states :=
  {| Double := Z;
     fftwVector := unit;
     SearchResult := Z -> Scripted;
     Vector3d := Z * Z;
     ComplexDouble := Z * Z;
     SignalTracker := Scripted;
     SignalTracker_new := fun _ _ table bias => table bias;
     tracker_processSamples := scripted_process;
     tracker_state := cur : Scripted -> @State test_states;
     tracker_sync := scripted_sync;
     tracker_transmitTime := clock;
     tracker_satellitePosition := fun t tow => (clock t, tow);
     tracker_latLong := fun t tow => (tow, clock t) |}.

Definition counter32 : PacketCounter := {| counter_bits := 32 |}.

(** A tracker that is in [s] now and follows [sc] from the next packet;
    its transmit time is [c]. *)
Definition tracker (s : TestState) (sc : list (bool * TestState)) (c : Z) : Scripted :=
  {| cur := s; script := sc; resync := None; clock := c |}.

#[local] Existing Instance test_states.
#[local] Existing Instance scripted.
#[local] Existing Instance counter32.

(** Every tracker is at full lock and fails on the next packet. *)
Definition all_fail : Z -> Scripted :=
  fun b => tracker tsFullTrack [(false, tsLossOfLock)] b.

(** Every tracker is at full lock, and sustains the next packet but
    falls back to acquiring on it. *)
Definition all_drop : Z -> Scripted :=
  fun b => tracker tsFullTrack [(true, tsAcquiring)] b.

(** Every tracker stays at full lock over packets; sync takes it back to
    acquiring. *)
Definition sync_demotes : Z -> Scripted :=
  fun b => {| cur := tsFullTrack; script := []; resync := Some tsAcquiring; clock := b |}.

(** Every tracker is acquiring and reaches full lock on the next packet. *)
Definition all_lock : Z -> Scripted :=
  fun b => tracker tsAcquiring [(true, tsFullTrack)] b.

(** On the next packet the tracker at -2000 Hz fails, those at -500 Hz
    and +500 Hz reach full lock, the others keep acquiring. *)
Definition mixed : Z -> Scripted :=
  fun b =>
    if b =? -2000 then tracker tsAcquiring [(false, tsLossOfLock)] b
    else if (b =? -500) || (b =? 500) then tracker tsAcquiring [(true, tsFullTrack)] b
    else tracker tsAcquiring [(true, tsAcquiring)] b.

(** Scenario A of the spec: the tracker at bias [b] fails on packet
    number [|b| / 500] (the outermost last), the one at 0 Hz reaches full
    lock on the fifth packet. *)
Definition only_centre : Z -> Scripted :=
  fun b =>
    if b =? 0
    then tracker tsAcquiring (repeat (true, tsAcquiring) 4 ++ [(true, tsFullTrack)]) b
    else tracker tsAcquiring
           (repeat (true, tsAcquiring) (Z.to_nat (Z.abs b / 500) - 1)
            ++ [(false, tsLossOfLock)]) b.

(** The scripted trackers do not look at the samples. *)
Definition packet : fftwVector := tt.

Definition bank (table : Z -> Scripted) : TrackingChannel :=
  TrackingChannel_new 1023000 3%N table.

Definition fed (n : nat) (table : Z -> Scripted) : TrackingChannel :=
  run (repeat (CallProcessSamples packet) n) (bank table).

Definition hyp_of (b : Z) (t : Scripted) : Hyp := {| hyp_bias := b; hyp_obj := t |}.

(** A time of week to ask positions for. *)
Definition noon : Double := 43200.

(** A surface of two rows of six code phases with one peak of 1000. *)
Definition peaked : Search.Surface :=
  [(0%Q, [1; 1; 1; 1; 1; 1]%Q); (500%Q, [1; 1; 1000; 1; 1; 1]%Q)].

(** The same with a peak of 20. *)
Definition flat : Search.Surface :=
  [(0%Q, [1; 1; 1; 1; 1; 1]%Q); (500%Q, [1; 1; 20; 1; 1; 1]%Q)].

End Fixture.

(** [l1] is [l2] with some elements removed, the others in place. *)
Inductive subseq {A : Type} : list A -> list A -> Prop :=
| subseq_nil : subseq [] []
| subseq_drop x l1 l2 : subseq l1 l2 -> subseq l1 (x :: l2)
| subseq_keep x l1 l2 : subseq l1 l2 -> subseq (x :: l1) (x :: l2).

(** ** Facts about the enumeration order *)

Section StateFacts.
Context `{StateEnum}.

Lemma State_eqb_eq (a b : State) : State_eqb a b = true <-> a = b.
Proof.
  unfold State_eqb. rewrite Z.eqb_eq. split.
  - apply State_val_inj.
  - intros ->. reflexivity.
Qed.

Lemma State_eqb_refl (a : State) : State_eqb a a = true.
Proof. now apply State_eqb_eq. Qed.

Lemma State_max_val (a b : State) :
  State_val (State_max a b) = Z.max (State_val a) (State_val b).
Proof. unfold State_max. destruct (Z.ltb_spec (State_val a) (State_val b)); lia. Qed.

Lemma State_max_cases (a b : State) : State_max a b = a \/ State_max a b = b.
Proof. unfold State_max. destruct (_ <? _); auto. Qed.
End StateFacts.

Section ChannelFacts.
Context `{SignalTrackerAPI} `{PacketCounter}.

(** *** state *)

Lemma state_loop_lower (l : list Hyp) (acc : State) :
  State_le acc (state_loop l acc).
Proof.
  unfold State_le, state_loop.
  induction l as [|h l IH] in acc |- *; simpl; [lia|].
  specialize (IH (State_max acc (hyp_state h))).
  rewrite State_max_val in IH. lia.
Qed.

Lemma state_loop_upper (l : list Hyp) (acc : State) (h : Hyp) :
  In h l -> State_le (hyp_state h) (state_loop l acc).
Proof.
  induction l as [|x l IH] in acc |- *; simpl; [tauto|].
  intros [->|Hin].
  - pose proof (state_loop_lower l (State_max acc (hyp_state h))) as L.
    unfold State_le in *. rewrite State_max_val in L.
    unfold state_loop in *. lia.
  - apply (IH _ Hin).
Qed.

Lemma state_loop_attained (l : list Hyp) (acc : State) :
  state_loop l acc = acc \/ exists h, In h l /\ state_loop l acc = hyp_state h.
Proof.
  induction l as [|x l IH] in acc |- *; simpl; [now left|].
  destruct (IH (State_max acc (hyp_state x))) as [E|(h & Hin & E)].
  - unfold state_loop in *. simpl. rewrite E.
    destruct (State_max_cases acc (hyp_state x)) as [->| ->]; [now left|].
    right. exists x. auto.
  - right. exists h. auto.
Qed.

Lemma state_attained (ch : TrackingChannel) :
  signalTrackers_ ch <> [] ->
  exists h, In h (signalTrackers_ ch) /\ state ch = hyp_state h.
Proof.
  intros Hne. unfold state.
  destruct (state_loop_attained (signalTrackers_ ch) lossOfLock) as [E|Hex]; [|exact Hex].
  destruct (signalTrackers_ ch) as [|h l] eqn:El; [congruence|].
  exists h. split; [now left|]. rewrite E.
  apply State_val_inj.
  pose proof (lossOfLock_least (hyp_state h)) as L1.
  pose proof (state_loop_upper (h :: l) lossOfLock h (or_introl eq_refl)) as L2.
  unfold State_le in L2. rewrite E in L2. lia.
Qed.

(** *** the loops as list functions *)

Lemma dispatch_filter (d : fftwVector) (l : list Hyp) :
  dispatch d l = map snd (filter fst (map (answer d) l)).
Proof.
  induction l as [|h l IH]; [reflexivity|].
  destruct (tracker_processSamples d (hyp_obj h)) as [ok t'] eqn:E.
  assert (A : answer d h = (ok, {| hyp_bias := hyp_bias h; hyp_obj := t' |}))
    by (unfold answer; now rewrite E).
  simpl. rewrite E, A. destruct ok; simpl; now rewrite IH.
Qed.

Lemma erase_unlocked_filter (l : list Hyp) : erase_unlocked l = filter locked l.
Proof.
  induction l as [|h l IH]; simpl; [reflexivity|].
  unfold locked at 1. destruct (State_eqb _ _); now rewrite IH.
Qed.

Lemma pop_back_loop_first (l : list Hyp) : pop_back_loop l = firstn 1 l.
Proof.
  funelim (pop_back_loop l).
  - match goal with IH : pop_back_loop _ = firstn 1 _ |- _ => rewrite IH end.
    destruct l as [|a [|b l]]; simpl in *; try lia.
    reflexivity.
  - destruct l as [|a [|b l]]; simpl in *; try reflexivity. lia.
Qed.

Lemma ctor_loop_ladder fs prn sr :
  ctor_loop fs prn sr (-4) [] = map (new_hyp fs prn sr) [-4; -3; -2; -1; 0; 1; 2; 3; 4].
Proof.
  repeat (simp ctor_loop;
          match goal with
          | |- context [Z_le_dec ?a 4] => destruct (Z_le_dec a 4); [simpl | lia]
          end).
  simp ctor_loop.
  match goal with
  | |- context [Z_le_dec ?a 4] => destruct (Z_le_dec a 4); [lia | simpl]
  end.
  reflexivity.
Qed.
End ChannelFacts.

(** ** Subsequences *)

Section Subseq.
Context {A : Type}.
Implicit Types l : list A.

Lemma subseq_refl l : subseq l l.
Proof. induction l; constructor; assumption. Qed.

Lemma subseq_nil_l l : subseq [] l.
Proof. induction l; constructor; assumption. Qed.

Lemma subseq_trans l1 l2 l3 : subseq l1 l2 -> subseq l2 l3 -> subseq l1 l3.
Proof.
  intros H12 H23. revert l1 H12.
  induction H23 as [|x l2 l3 _ IH|x l2 l3 _ IH]; intros l1 H12.
  - assumption.
  - constructor. now apply IH.
  - inversion H12; subst; constructor; now apply IH.
Qed.

Lemma subseq_In l1 l2 x : subseq l1 l2 -> In x l1 -> In x l2.
Proof. induction 1; simpl; tauto. Qed.

Lemma subseq_length l1 l2 : subseq l1 l2 -> (length l1 <= length l2)%nat.
Proof. induction 1; simpl; lia. Qed.

Lemma subseq_firstn n l : subseq (firstn n l) l.
Proof.
  induction n as [|n IH] in l |- *; [apply subseq_nil_l|].
  destruct l; simpl; [constructor|]. apply subseq_keep, IH.
Qed.

Lemma subseq_sorted (R : A -> A -> Prop) l1 l2 :
  subseq l1 l2 -> StronglySorted R l2 -> StronglySorted R l1.
Proof.
  induction 1 as [|x l1 l2 Hs IH|x l1 l2 Hs IH]; intros S2.
  - constructor.
  - apply IH. now inversion S2.
  - inversion S2 as [|? ? S2' F]; subst. constructor; [now apply IH|].
    rewrite Forall_forall in *. intros y Hy. apply F.
    eapply subseq_In; eassumption.
Qed.
End Subseq.

(** ** The bank only shrinks, and in place *)

Section Pruning.
Context `{SignalTrackerAPI} `{PacketCounter}.

Lemma dispatch_biases (d : fftwVector) (l : list Hyp) :
  subseq (map hyp_bias (dispatch d l)) (map hyp_bias l).
Proof.
  induction l as [|h l IH]; simpl; [constructor|].
  destruct (tracker_processSamples d (hyp_obj h)) as [[|] t']; simpl;
    constructor; assumption.
Qed.

Lemma erase_unlocked_biases (l : list Hyp) :
  subseq (map hyp_bias (erase_unlocked l)) (map hyp_bias l).
Proof.
  induction l as [|h l IH]; simpl; [constructor|].
  destruct (State_eqb _ _); simpl; constructor; assumption.
Qed.

Lemma sync_biases (l : list Hyp) : map hyp_bias (map sync_hyp l) = map hyp_bias l.
Proof. rewrite map_map. reflexivity. Qed.

Lemma pop_back_loop_biases (l : list Hyp) :
  subseq (map hyp_bias (pop_back_loop l)) (map hyp_bias l).
Proof.
  rewrite pop_back_loop_first, <- firstn_map. apply subseq_firstn.
Qed.

Lemma consensus_biases (ch : TrackingChannel) :
  subseq (biases (consensus ch)) (biases ch).
Proof.
  unfold consensus, biases, with_trackers, sync. cbn [signalTrackers_].
  eapply subseq_trans; [apply pop_back_loop_biases|].
  eapply subseq_trans; [apply erase_unlocked_biases|].
  rewrite sync_biases. apply subseq_refl.
Qed.

Lemma processSamples_biases (d : fftwVector) (ch : TrackingChannel) :
  subseq (biases (snd (processSamples d ch))) (biases ch).
Proof.
  unfold processSamples, processSamples_channel. cbn [snd].
  assert (D : subseq (biases (dispatched d ch)) (biases ch))
    by apply dispatch_biases.
  destruct (consensus_guard (dispatched d ch)); [|exact D].
  eapply subseq_trans; [apply consensus_biases | exact D].
Qed.

Lemma call_biases (ch : TrackingChannel) (c : Call) :
  subseq (biases (call ch c)) (biases ch).
Proof.
  destruct c as [d|]; cbn [call].
  - apply processSamples_biases.
  - unfold biases, sync. cbn [signalTrackers_]. rewrite sync_biases.
    apply subseq_refl.
Qed.

Lemma run_biases (calls : list Call) (ch : TrackingChannel) :
  subseq (biases (run calls ch)) (biases ch).
Proof.
  unfold run. induction calls as [|c calls IH] in ch |- *; simpl.
  - apply subseq_refl.
  - eapply subseq_trans; [apply IH | apply call_biases].
Qed.

Lemma size_biases (ch : TrackingChannel) : size ch = length (biases ch).
Proof. unfold size, biases. now rewrite length_map. Qed.

Lemma new_biases fs prn sr : biases (TrackingChannel_new fs prn sr) = ladder.
Proof.
  unfold biases, TrackingChannel_new. cbn [signalTrackers_].
  rewrite ctor_loop_ladder. reflexivity.
Qed.

Lemma ladder_sorted : StronglySorted Z.lt ladder.
Proof.
  unfold ladder.
  repeat (constructor; [|repeat (constructor; try lia)]). constructor.
Qed.

Lemma run_reachable (calls : list Call) (ch : TrackingChannel) :
  reachable ch -> reachable (run calls ch).
Proof.
  unfold run. induction calls as [|c calls IH] in ch |- *; simpl; [trivial|].
  intros R. apply IH. now constructor.
Qed.

Lemma reachable_biases (ch : TrackingChannel) :
  reachable ch -> subseq (biases ch) ladder.
Proof.
  induction 1 as [fs prn sr|ch c _ IH].
  - rewrite new_biases. apply subseq_refl.
  - eapply subseq_trans; [apply call_biases | exact IH].
Qed.
End Pruning.

(** ** What one call of processSamples leaves *)

Section ProcessSamples.
Context `{SignalTrackerAPI} `{PacketCounter}.

Lemma consensus_guard_true (ch : TrackingChannel) :
  consensus_guard ch = true <-> (2 <= size ch)%nat /\ state ch = fullTrack.
Proof.
  unfold consensus_guard.
  rewrite andb_true_iff, Nat.ltb_lt, State_eqb_eq. reflexivity.
Qed.

Lemma consensus_trackers (ch : TrackingChannel) :
  signalTrackers_ (consensus ch)
  = firstn 1 (filter locked (map sync_hyp (signalTrackers_ ch))).
Proof.
  unfold consensus, with_trackers, sync. cbn [signalTrackers_].
  now rewrite pop_back_loop_first, erase_unlocked_filter.
Qed.

Lemma processSamples_trackers (d : fftwVector) (ch : TrackingChannel) :
  signalTrackers_ (snd (processSamples d ch))
  = if consensus_guard (dispatched d ch)
    then firstn 1 (filter locked (map sync_hyp (dispatch d (signalTrackers_ ch))))
    else dispatch d (signalTrackers_ ch).
Proof.
  unfold processSamples, processSamples_channel. cbn [snd].
  destruct (consensus_guard (dispatched d ch)); [|reflexivity].
  now rewrite consensus_trackers.
Qed.

Lemma guard_leaves_one (d : fftwVector) (ch : TrackingChannel) :
  consensus_guard (dispatched d ch) = true ->
  (exists h, In h (signalTrackers_ (sync (dispatched d ch)))
             /\ hyp_state h = fullTrack) ->
  size (snd (processSamples d ch)) = 1%nat.
Proof.
  intros G (h & Hin & Hh).
  unfold size. rewrite processSamples_trackers, G.
  assert (Hf : In h (filter locked (map sync_hyp (dispatch d (signalTrackers_ ch))))).
  { apply filter_In. split; [exact Hin|].
    unfold locked. rewrite Hh. apply State_eqb_refl. }
  destruct (filter locked _) as [|x l]; [destruct Hf|reflexivity].
Qed.

Lemma processSamples_result (d : fftwVector) (ch : TrackingChannel) :
  fst (processSamples d ch) = true <-> (1 <= size (snd (processSamples d ch)))%nat.
Proof.
  unfold processSamples. cbn [fst snd].
  rewrite negb_true_iff, Nat.eqb_neq. lia.
Qed.

Lemma front_cons {A} (m : SignalTracker -> A) (ch : TrackingChannel) h rest :
  signalTrackers_ ch = h :: rest -> front m ch = Some (m (hyp_obj h)).
Proof. unfold front. now intros ->. Qed.

Lemma front_none {A} (m : SignalTracker -> A) (ch : TrackingChannel) :
  front m ch = None <-> size ch = 0%nat.
Proof.
  unfold front, size. destruct (signalTrackers_ ch); simpl; split;
    intros E; reflexivity || discriminate E.
Qed.
End ProcessSamples.

(** ** The claims *)

Section Claims.
Context `{SignalTrackerAPI} `{PacketCounter}.

(** C1, as the code has it: consensus is decided inside the call.  If,
    once the packet has been dispatched and the failing hypotheses are
    removed, at least 2 hypotheses remain and the aggregate state is
    fullTrack, and at least one of them still reports fullTrack after
    sync(), then the call ends with exactly 1 hypothesis and returns
    true. *)
Theorem consensus_converges (d : fftwVector) (ch : TrackingChannel) :
  (2 <= size (dispatched d ch))%nat ->
  state (dispatched d ch) = fullTrack ->
  (exists h, In h (signalTrackers_ (sync (dispatched d ch)))
             /\ hyp_state h = fullTrack) ->
  size (snd (processSamples d ch)) = 1%nat /\ fst (processSamples d ch) = true.
Proof.
  intros Hsize Hstate Hlock.
  assert (G : consensus_guard (dispatched d ch) = true)
    by now apply consensus_guard_true.
  pose proof (guard_leaves_one d ch G Hlock) as S1.
  split; [exact S1|]. apply processSamples_result. lia.
Qed.

(** When sync() does not change the state a tracker reports, the guard of
    the consensus block alone makes the call end with one hypothesis. *)
Corollary guard_converges_under_stable_sync (d : fftwVector) (ch : TrackingChannel) :
  (forall t, tracker_state (tracker_sync t) = tracker_state t) ->
  consensus_guard (dispatched d ch) = true ->
  size (snd (processSamples d ch)) = 1%nat.
Proof.
  intros Stable G. apply guard_leaves_one; [exact G|].
  apply consensus_guard_true in G. destruct G as [Hsize Hstate].
  destruct (state_attained (dispatched d ch)) as (h & Hin & Hh).
  { intros E. unfold size in Hsize. rewrite E in Hsize. simpl in Hsize. lia. }
  exists (sync_hyp h). split.
  - unfold sync. cbn [signalTrackers_]. now apply in_map.
  - unfold hyp_state, sync_hyp. cbn [hyp_obj]. rewrite Stable.
    fold (hyp_state h). now rewrite <- Hh.
Qed.

(** C2, as the code has it: processSamples hands the packet to every
    live hypothesis exactly once; the first loop removes exactly the
    hypotheses whose own processSamples reported failure; what the call
    leaves is drawn from these survivors, each with the tracker its one
    processSamples call produced (and sync applied once when the consensus
    block is entered): all of them when the consensus block is not entered,
    otherwise only the first that reports fullTrack after sync(), if any;
    the call returns true if and only if at least one hypothesis remains
    afterward. *)
Theorem processSamples_dispatches (d : fftwVector) (ch : TrackingChannel) :
  let answers := map (answer d) (signalTrackers_ ch) in
  let survivors := map snd (filter fst answers) in
  length answers = size ch
  /\ signalTrackers_ (dispatched d ch) = survivors
  /\ signalTrackers_ (snd (processSamples d ch))
     = (if consensus_guard (dispatched d ch)
        then firstn 1 (filter locked (map sync_hyp survivors))
        else survivors)
  /\ (forall h', In h' (signalTrackers_ (snd (processSamples d ch))) ->
      exists h, In h (signalTrackers_ ch)
                /\ hyp_bias h' = hyp_bias h
                /\ fst (tracker_processSamples d (hyp_obj h)) = true
                /\ hyp_obj h'
                   = (if consensus_guard (dispatched d ch)
                      then tracker_sync (snd (tracker_processSamples d (hyp_obj h)))
                      else snd (tracker_processSamples d (hyp_obj h))))
  /\ subseq (biases (snd (processSamples d ch))) (biases (dispatched d ch))
  /\ (consensus_guard (dispatched d ch) = false ->
      signalTrackers_ (snd (processSamples d ch)) = survivors)
  /\ (fst (processSamples d ch) = true
      <-> (1 <= size (snd (processSamples d ch)))%nat).
Proof.
  cbv zeta.
  assert (T : signalTrackers_ (snd (processSamples d ch))
              = (if consensus_guard (dispatched d ch)
                 then firstn 1 (filter locked (map sync_hyp
                        (map snd (filter fst (map (answer d) (signalTrackers_ ch))))))
                 else map snd (filter fst (map (answer d) (signalTrackers_ ch)))))
    by (rewrite processSamples_trackers, dispatch_filter; reflexivity).
  assert (Origin : forall x,
             In x (map snd (filter fst (map (answer d) (signalTrackers_ ch)))) ->
             exists h, In h (signalTrackers_ ch)
                       /\ hyp_bias x = hyp_bias h
                       /\ fst (tracker_processSamples d (hyp_obj h)) = true
                       /\ hyp_obj x = snd (tracker_processSamples d (hyp_obj h))).
  { intros x Hx. apply in_map_iff in Hx. destruct Hx as ([ok y] & E & Hin).
    cbn [snd] in E. subst y. apply filter_In in Hin. destruct Hin as [Hin Hok].
    cbn [fst] in Hok. subst ok. apply in_map_iff in Hin.
    destruct Hin as (h & A & Hin). exists h.
    unfold answer in A. injection A as Hfst Hx. subst x.
    cbn [hyp_bias hyp_obj]. auto. }
  split; [unfold size; apply length_map|].
  split; [apply dispatch_filter|].
  split; [exact T|].
  split.
  { intros h' Hin. rewrite T in Hin.
    destruct (consensus_guard (dispatched d ch)).
    - apply (subseq_In _ _ _ (subseq_firstn 1 _)) in Hin.
      apply filter_In in Hin. destruct Hin as [Hin _].
      apply in_map_iff in Hin. destruct Hin as (x & <- & Hx).
      destruct (Origin x Hx) as (h & Hh & Hb & Hok & Ho).
      exists h. cbn [sync_hyp hyp_bias hyp_obj]. rewrite Ho. auto.
    - now apply Origin. }
  split.
  { unfold processSamples, processSamples_channel. cbn [snd].
    destruct (consensus_guard (dispatched d ch)).
    - apply consensus_biases.
    - apply subseq_refl. }
  split.
  { intros G. rewrite T, G. reflexivity. }
  apply processSamples_result.
Qed.

(** C3: state() is the maximum of the live hypotheses' states in the
    order of the enumeration (an upper bound of all of them that one of
    them attains), and is lossOfLock when the collection is empty. *)
Theorem state_is_maximum (ch : TrackingChannel) :
  (signalTrackers_ ch = [] -> state ch = lossOfLock)
  /\ (forall h, In h (signalTrackers_ ch) -> State_le (hyp_state h) (state ch))
  /\ (signalTrackers_ ch <> [] ->
      exists h, In h (signalTrackers_ ch) /\ state ch = hyp_state h).
Proof.
  split; [|split].
  - unfold state. now intros ->.
  - intros h Hin. now apply state_loop_upper.
  - apply state_attained.
Qed.

(** C4: no call adds a hypothesis: along any sequence of calls, the size
    of the collection after a call to processSamples is at most its size
    before the call, and never exceeds the size the sequence started
    from. *)
Theorem size_non_increasing (ch : TrackingChannel) (calls : list Call)
    (d : fftwVector) :
  (size (snd (processSamples d (run calls ch))) <= size (run calls ch))%nat
  /\ (size (run calls ch) <= size ch)%nat.
Proof.
  rewrite !size_biases. split; apply subseq_length.
  - apply processSamples_biases.
  - apply run_biases.
Qed.

(** C5: the constructor instantiates exactly 9 hypotheses, all with the
    given sample rate, PRN and search result, with the biases -2000,
    -1500, -1000, -500, 0, +500, +1000, +1500, +2000 Hz in that order. *)
Theorem ctor_builds_ladder (fs : Double) (prn : N) (sr : SearchResult) :
  signalTrackers_ (TrackingChannel_new fs prn sr)
  = map (fun b => {| hyp_bias := b; hyp_obj := SignalTracker_new fs prn sr b |})
        [-2000; -1500; -1000; -500; 0; 500; 1000; 1500; 2000]
  /\ size (TrackingChannel_new fs prn sr) = 9%nat
  /\ In 0 (biases (TrackingChannel_new fs prn sr))
  /\ prn_ (TrackingChannel_new fs prn sr) = prn.
Proof.
  assert (E : signalTrackers_ (TrackingChannel_new fs prn sr)
              = map (fun b => {| hyp_bias := b;
                                 hyp_obj := SignalTracker_new fs prn sr b |})
                    [-2000; -1500; -1000; -500; 0; 500; 1000; 1500; 2000]).
  { unfold TrackingChannel_new. cbn [signalTrackers_].
    rewrite ctor_loop_ladder. reflexivity. }
  unfold size, biases. rewrite E. simpl. intuition.
Qed.

(** C6: when the consensus block is entered and more than one hypothesis
    at fullTrack is left after the others are erased, the call ends with
    the first of them, in iteration order, as the only member. *)
Theorem tie_break_keeps_first (d : fftwVector) (ch : TrackingChannel)
    (h : Hyp) (rest : list Hyp) :
  consensus_guard (dispatched d ch) = true ->
  erase_unlocked (signalTrackers_ (sync (dispatched d ch))) = h :: rest ->
  (1 < length (h :: rest))%nat ->
  signalTrackers_ (snd (processSamples d ch)) = [h].
Proof.
  intros G E _. rewrite processSamples_trackers, G.
  rewrite erase_unlocked_filter in E. unfold sync, dispatched in E.
  cbn [signalTrackers_] in E. now rewrite E.
Qed.

(** C7, as the code has it: transmitTime() takes front() of the
    collection, so it is defined exactly when the channel holds at least
    one hypothesis, and then it is the transmit time of the first one; on
    a channel with zero hypotheses it is undefined behaviour. *)
Theorem transmitTime_defined_iff (ch : TrackingChannel) :
  (transmitTime ch = None <-> size ch = 0%nat)
  /\ (forall h rest, signalTrackers_ ch = h :: rest ->
      transmitTime ch = Some (tracker_transmitTime (hyp_obj h))).
Proof.
  split.
  - apply front_none.
  - intros h rest E. now apply (front_cons _ _ h rest).
Qed.

(** C9: sync() leaves the collection as it is: the same hypotheses (by
    bias) in the same order and number, each one having received sync,
    and the packet counter and the PRN untouched. *)
Theorem sync_frame (ch : TrackingChannel) :
  biases (sync ch) = biases ch
  /\ size (sync ch) = size ch
  /\ (forall i, nth_error (signalTrackers_ (sync ch)) i
                = option_map sync_hyp (nth_error (signalTrackers_ ch) i))
  /\ inputPackets_ (sync ch) = inputPackets_ ch
  /\ prn_ (sync ch) = prn_ ch.
Proof.
  unfold biases, size, sync. cbn [signalTrackers_ inputPackets_ prn_].
  repeat split.
  - apply sync_biases.
  - apply length_map.
  - intros i. apply nth_error_map.
Qed.

(** C10: in every reachable channel the live hypotheses are a
    subsequence of the constructed ladder, hence in strictly ascending
    bias order, so that transmitTime(), satellitePosition() and latLong()
    delegate to the survivor of least (most negative) bias. *)
Theorem front_is_least_bias (ch : TrackingChannel) :
  reachable ch ->
  subseq (biases ch) ladder
  /\ StronglySorted Z.lt (biases ch)
  /\ (forall h rest, signalTrackers_ ch = h :: rest ->
      (forall h', In h' rest -> hyp_bias h < hyp_bias h')
      /\ transmitTime ch = Some (tracker_transmitTime (hyp_obj h))
      /\ (forall tow, satellitePosition ch tow
                      = Some (tracker_satellitePosition (hyp_obj h) tow))
      /\ (forall tow, latLong ch tow = Some (tracker_latLong (hyp_obj h) tow))).
Proof.
  intros R. pose proof (reachable_biases ch R) as Sub.
  pose proof (subseq_sorted Z.lt _ _ Sub ladder_sorted) as Srt.
  split; [exact Sub|]. split; [exact Srt|].
  intros h rest E. unfold biases in Srt. rewrite E in Srt. simpl in Srt.
  apply StronglySorted_inv in Srt. destruct Srt as [_ F].
  rewrite Forall_forall in F.
  split; [|split; [|split]].
  - intros h' Hin. apply F. now apply in_map.
  - now apply (front_cons _ _ h rest).
  - intros tow. unfold satellitePosition.
    now rewrite (front_cons _ _ h rest E).
  - intros tow. unfold latLong. now rewrite (front_cons _ _ h rest E).
Qed.
End Claims.

(** ** The search threshold *)

Module SearchFacts.
Import Search.
Local Open Scope Q_scope.

Lemma stronger_mag (best b : Bin) :
  bin_mag best <= bin_mag (stronger best b) /\ bin_mag b <= bin_mag (stronger best b).
Proof.
  unfold stronger. destruct (Qlt_le_dec (bin_mag best) (bin_mag b)) as [L|L]; split;
    auto using Qle_refl, Qlt_le_weak.
Qed.

Lemma fold_stronger_spec (l : list Bin) (b0 : Bin) :
  let r := fold_left stronger l b0 in
  bin_mag b0 <= bin_mag r
  /\ (forall b, In b l -> bin_mag b <= bin_mag r)
  /\ (r = b0 \/ In r l).
Proof.
  induction l as [|x l IH] in b0 |- *; cbv zeta; simpl.
  - split; [apply Qle_refl|]. split; [tauto|now left].
  - destruct (IH (stronger b0 x)) as (L & U & M).
    destruct (stronger_mag b0 x) as [S0 Sx].
    split; [eapply Qle_trans; eassumption|]. split.
    + intros b [->|Hin]; [eapply Qle_trans; eassumption|now apply U].
    + destruct M as [E|Hin]; [|now right; right].
      rewrite E. unfold stronger. destruct (Qlt_le_dec _ _); [right|]; now left.
Qed.

(** C8: search always returns a result, and flags it not found exactly
    when the confidence it computed is below SAT_FOUND_THRESH, which is
    10; a result at or above the threshold is found and carries the bin
    of maximal accumulated magnitude of the surface. *)
Theorem search_threshold (noise : Surface -> Q) (s : Surface) :
  (found (search noise s) = false <-> confidence (search noise s) < SAT_FOUND_THRESH)
  /\ SAT_FOUND_THRESH == 10
  /\ (SAT_FOUND_THRESH <= confidence (search noise s) ->
      found (search noise s) = true
      /\ In {| bin_freq := frequency (search noise s);
               bin_code := codePhase (search noise s);
               bin_mag := peak (search noise s) |} (bins s)
      /\ forall b, In b (bins s) -> bin_mag b <= peak (search noise s)).
Proof.
  unfold search. cbn [found confidence frequency codePhase peak].
  set (best := strongest (bins s)).
  destruct (fold_stronger_spec (bins s) no_peak) as (_ & U & M).
  fold (strongest (bins s)) in U, M. fold best in U, M.
  split; [|split].
  - destruct (Qlt_le_dec (bin_mag best / noise s) SAT_FOUND_THRESH) as [L|L].
    + tauto.
    + split; [discriminate|]. intros L'. exfalso.
      exact (Qlt_not_le _ _ L' L).
  - reflexivity.
  - intros L. split; [|split].
    + destruct (Qlt_le_dec (bin_mag best / noise s) SAT_FOUND_THRESH) as [L'|_];
        [|reflexivity].
      exfalso. exact (Qlt_not_le _ _ L' L).
    + destruct M as [E|Hin].
      * exfalso. rewrite E in L. cbn [no_peak bin_mag] in L.
        unfold Qdiv in L. rewrite Qmult_0_l in L.
        revert L. unfold SAT_FOUND_THRESH. apply Qlt_not_le. reflexivity.
      * destruct best. exact Hin.
    + exact U.
Qed.
End SearchFacts.

(** ** Further properties of the channel *)

Section ChannelLife.
Context `{SignalTrackerAPI} `{PacketCounter}.

Lemma State_max_least (s : State) : State_max lossOfLock s = s.
Proof.
  unfold State_max. destruct (Z.ltb_spec (State_val lossOfLock) (State_val s)) as [L|L].
  - reflexivity.
  - apply State_val_inj. pose proof (lossOfLock_least s). lia.
Qed.

Lemma state_single (ch : TrackingChannel) (h : Hyp) :
  signalTrackers_ ch = [h] -> state ch = hyp_state h.
Proof. unfold state. intros ->. simpl. apply State_max_least. Qed.

Lemma state_empty (ch : TrackingChannel) : size ch = 0%nat -> state ch = lossOfLock.
Proof.
  unfold state, size. destruct (signalTrackers_ ch); [reflexivity|discriminate].
Qed.

Lemma consensus_guard_false (ch : TrackingChannel) :
  consensus_guard ch = false -> (size ch <= 1)%nat \/ state ch <> fullTrack.
Proof.
  unfold consensus_guard. rewrite andb_false_iff, Nat.ltb_ge.
  intros [L|E]; [now left|right].
  intros E'. rewrite E' in E. now rewrite State_eqb_refl in E.
Qed.

Lemma consensus_guard_small (ch : TrackingChannel) :
  (size ch <= 1)%nat -> consensus_guard ch = false.
Proof.
  intros L. unfold consensus_guard.
  destruct (Nat.ltb_spec 1 (size ch)); [lia|reflexivity].
Qed.

Lemma dispatch_length (d : fftwVector) (l : list Hyp) :
  (length (dispatch d l) <= length l)%nat.
Proof.
  pose proof (subseq_length _ _ (dispatch_biases d l)) as L.
  now rewrite !length_map in L.
Qed.

Lemma call_size (ch : TrackingChannel) (c : Call) : (size (call ch c) <= size ch)%nat.
Proof. rewrite !size_biases. apply subseq_length, call_biases. Qed.

Lemma run_size (calls : list Call) (ch : TrackingChannel) :
  (size (run calls ch) <= size ch)%nat.
Proof. rewrite !size_biases. apply subseq_length, run_biases. Qed.

Lemma processSamples_prn (d : fftwVector) (ch : TrackingChannel) :
  prn_ (snd (processSamples d ch)) = prn_ ch.
Proof.
  unfold processSamples, processSamples_channel. cbn [snd].
  destruct (consensus_guard (dispatched d ch)); reflexivity.
Qed.

Lemma processSamples_counter (d : fftwVector) (ch : TrackingChannel) :
  inputPackets_ (snd (processSamples d ch)) = counter_incr (inputPackets_ ch).
Proof.
  unfold processSamples, processSamples_channel. cbn [snd].
  destruct (consensus_guard (dispatched d ch)); reflexivity.
Qed.

Lemma run_counter (calls : list Call) (ch : TrackingChannel) (k : Z) :
  inputPackets_ ch = k mod 2 ^ counter_bits ->
  inputPackets_ (run calls ch)
  = (k + Z.of_nat (packets_fed calls)) mod 2 ^ counter_bits.
Proof.
  unfold run, packets_fed.
  induction calls as [|c calls IH] in ch, k |- *; intros E.
  - simpl. now rewrite Z.add_0_r.
  - destruct c as [d|]; cbn [fold_left filter is_processSamples call length].
    + rewrite (IH _ (k + 1)).
      * f_equal. lia.
      * rewrite processSamples_counter, E. unfold counter_incr.
        apply Zplus_mod_idemp_l.
    + now apply IH.
Qed.

(** The hypotheses a call leaves, with the trackers they come from. *)
Lemma dispatch_origin (d : fftwVector) (l : list Hyp) (h' : Hyp) :
  In h' (dispatch d l) ->
  exists h, In h l
            /\ hyp_bias h' = hyp_bias h
            /\ fst (tracker_processSamples d (hyp_obj h)) = true
            /\ hyp_obj h' = snd (tracker_processSamples d (hyp_obj h)).
Proof.
  rewrite dispatch_filter, in_map_iff.
  intros ([ok x] & E & Hin). cbn [snd] in E. subst x.
  apply filter_In in Hin. destruct Hin as [Hin Hok]. cbn [fst] in Hok. subst ok.
  apply in_map_iff in Hin. destruct Hin as (h & A & Hin).
  exists h. unfold answer in A. injection A as Hfst Hh'. subst h'.
  cbn [hyp_bias hyp_obj]. auto.
Qed.

Lemma firstn_In {A} (n : nat) (l : list A) (x : A) : In x (firstn n l) -> In x l.
Proof. apply subseq_In, subseq_firstn. Qed.

(** X1: prn() is fixed at construction: after any sequence of
    processSamples and sync calls it still returns the PRN the constructor
    was given. *)
Theorem prn_constant (fs : Double) (p : N) (sr : SearchResult) (calls : list Call) :
  prn (run calls (TrackingChannel_new fs p sr)) = p.
Proof.
  unfold prn.
  assert (K : forall ch, prn_ (run calls ch) = prn_ ch).
  { unfold run. induction calls as [|c calls IH]; intros ch; [reflexivity|].
    simpl. rewrite IH. destruct c as [d|]; cbn [call].
    - apply processSamples_prn.
    - reflexivity. }
  now rewrite K.
Qed.

(** X2: the packet counter counts calls of processSamples and nothing
    else: after any sequence of calls on a constructed channel it holds
    the number of processSamples calls among them, reduced to the counter's
    width; a call counts whether or not hypotheses were removed or any are
    left, and sync does not count. *)
Theorem inputPackets_counts_calls (fs : Double) (p : N) (sr : SearchResult)
    (calls : list Call) :
  inputPackets_ (run calls (TrackingChannel_new fs p sr))
  = Z.of_nat (packets_fed calls) mod 2 ^ counter_bits.
Proof.
  rewrite (run_counter calls _ 0); [reflexivity|].
  cbn [TrackingChannel_new inputPackets_]. symmetry. apply Zmod_0_l.
Qed.

Lemma processSamples_no_consensus (d : fftwVector) (ch : TrackingChannel) :
  consensus_guard (dispatched d ch) = false ->
  snd (processSamples d ch) = dispatched d ch.
Proof.
  intros G. unfold processSamples, processSamples_channel. cbn [snd]. now rewrite G.
Qed.

Lemma filter_locked_biases (l : list Hyp) :
  subseq (map hyp_bias (filter locked l)) (map hyp_bias l).
Proof. rewrite <- erase_unlocked_filter. apply erase_unlocked_biases. Qed.

Lemma locked_true (h : Hyp) : locked h = true <-> hyp_state h = fullTrack.
Proof. unfold locked. apply State_eqb_eq. Qed.

(** X3: a channel never comes out of processSamples in full lock and
    unresolved.  If state() is fullTrack after a call (fullTrack and
    lossOfLock being different enumerators), the channel holds exactly one
    hypothesis and that hypothesis is itself at fullTrack, so the accessors
    answer from a tracker in full lock. *)
Theorem full_lock_means_resolved (d : fftwVector) (ch : TrackingChannel) :
  fullTrack <> lossOfLock ->
  state (snd (processSamples d ch)) = fullTrack ->
  exists h, signalTrackers_ (snd (processSamples d ch)) = [h]
            /\ hyp_state h = fullTrack
            /\ transmitTime (snd (processSamples d ch))
               = Some (tracker_transmitTime (hyp_obj h)).
Proof.
  intros Hne Hst.
  assert (K : exists h, signalTrackers_ (snd (processSamples d ch)) = [h]
                        /\ hyp_state h = fullTrack).
  { destruct (consensus_guard (dispatched d ch)) eqn:G.
    - pose proof (processSamples_trackers d ch) as T. rewrite G in T.
      destruct (filter locked (map sync_hyp (dispatch d (signalTrackers_ ch))))
        as [|x l] eqn:F.
      + exfalso. apply Hne. rewrite <- Hst. apply state_empty.
        unfold size. now rewrite T.
      + exists x. split; [exact T|]. apply locked_true.
        assert (Hin : In x (filter locked (map sync_hyp (dispatch d (signalTrackers_ ch)))))
          by (rewrite F; now left).
        now apply filter_In in Hin.
    - rewrite (processSamples_no_consensus d ch G) in *.
      destruct (consensus_guard_false _ G) as [L|N]; [|contradiction].
      unfold size in L.
      destruct (signalTrackers_ (dispatched d ch)) as [|h [|h2 l]] eqn:E.
      + exfalso. apply Hne. rewrite <- Hst. apply state_empty.
        unfold size. now rewrite E.
      + exists h. split; [reflexivity|].
        rewrite <- Hst. symmetry. now apply state_single.
      + simpl in L. lia. }
  destruct K as (h & E & Hh). exists h. repeat split; try assumption.
  now apply (front_cons _ _ h []).
Qed.

(** X4: once the consensus block is entered, the call leaves at most one
    hypothesis.  It leaves none exactly when no hypothesis reports
    fullTrack after sync(), and when it leaves one, state() is fullTrack
    again at the end of the call. *)
Theorem consensus_outcome (d : fftwVector) (ch : TrackingChannel) :
  consensus_guard (dispatched d ch) = true ->
  (size (snd (processSamples d ch)) <= 1)%nat
  /\ (size (snd (processSamples d ch)) = 0%nat
      <-> forall h, In h (signalTrackers_ (sync (dispatched d ch))) ->
                    hyp_state h <> fullTrack)
  /\ (size (snd (processSamples d ch)) = 1%nat ->
      state (snd (processSamples d ch)) = fullTrack).
Proof.
  intros G. pose proof (processSamples_trackers d ch) as T. rewrite G in T.
  assert (SE : signalTrackers_ (sync (dispatched d ch))
               = map sync_hyp (dispatch d (signalTrackers_ ch))) by reflexivity.
  rewrite SE. clear SE.
  set (synced := map sync_hyp (dispatch d (signalTrackers_ ch))) in *.
  destruct (filter locked synced) as [|x l] eqn:F; cbn [firstn] in T.
  - assert (S0 : size (snd (processSamples d ch)) = 0%nat)
      by (unfold size; now rewrite T).
    rewrite S0. split; [lia|]. split; [|discriminate].
    split; [|reflexivity]. intros _ h Hin Hh.
    assert (Hf : In h (filter locked synced))
      by (apply filter_In; split; [exact Hin|now apply locked_true]).
    rewrite F in Hf. destruct Hf.
  - assert (S1 : size (snd (processSamples d ch)) = 1%nat)
      by (unfold size; now rewrite T).
    assert (Hx : In x (filter locked synced)) by (rewrite F; now left).
    apply filter_In in Hx. destruct Hx as [Hin Hl]. apply locked_true in Hl.
    rewrite S1. split; [lia|]. split.
    + split; [discriminate|].
      intros N. exfalso. exact (N x Hin Hl).
    + intros _. rewrite (state_single _ x T). exact Hl.
Qed.

(** X5: a channel that has run out of hypotheses stays that way.  Once
    processSamples has returned false, after any further calls the
    collection is still empty, state() is lossOfLock, processSamples
    returns false again and transmitTime() is undefined. *)
Theorem exhausted_is_final (d : fftwVector) (ch : TrackingChannel)
    (calls : list Call) (d' : fftwVector) :
  fst (processSamples d ch) = false ->
  size (run calls (snd (processSamples d ch))) = 0%nat
  /\ state (run calls (snd (processSamples d ch))) = lossOfLock
  /\ fst (processSamples d' (run calls (snd (processSamples d ch)))) = false
  /\ transmitTime (run calls (snd (processSamples d ch))) = None.
Proof.
  intros R.
  assert (Z0 : size (snd (processSamples d ch)) = 0%nat).
  { destruct (size (snd (processSamples d ch))) eqn:E; [reflexivity|].
    assert (T : fst (processSamples d ch) = true)
      by (apply processSamples_result; lia).
    congruence. }
  set (ch1 := snd (processSamples d ch)) in *.
  assert (Z1 : size (run calls ch1) = 0%nat)
    by (pose proof (run_size calls ch1); lia).
  split; [exact Z1|]. split; [now apply state_empty|]. split.
  - destruct (fst (processSamples d' (run calls ch1))) eqn:E; [|reflexivity].
    apply processSamples_result in E.
    pose proof (call_size (run calls ch1) (CallProcessSamples d')) as L.
    cbn [call] in L. lia.
  - now apply front_none.
Qed.

(** X6: the value processSamples returns tells whether the accessors may
    be called.  When it returns true, transmitTime(), satellitePosition()
    and latLong() are all defined on the channel it leaves and answer from
    one and the same hypothesis; when it returns false, all three are
    undefined. *)
Theorem accessors_follow_result (d : fftwVector) (ch : TrackingChannel)
    (tow : Double) :
  (fst (processSamples d ch) = true ->
   exists h, In h (signalTrackers_ (snd (processSamples d ch)))
             /\ transmitTime (snd (processSamples d ch))
                = Some (tracker_transmitTime (hyp_obj h))
             /\ satellitePosition (snd (processSamples d ch)) tow
                = Some (tracker_satellitePosition (hyp_obj h) tow)
             /\ latLong (snd (processSamples d ch)) tow
                = Some (tracker_latLong (hyp_obj h) tow))
  /\ (fst (processSamples d ch) = false ->
      transmitTime (snd (processSamples d ch)) = None
      /\ satellitePosition (snd (processSamples d ch)) tow = None
      /\ latLong (snd (processSamples d ch)) tow = None).
Proof.
  split; intros R.
  - apply processSamples_result in R. unfold size in R.
    destruct (signalTrackers_ (snd (processSamples d ch))) as [|h rest] eqn:E;
      [simpl in R; lia|].
    exists h. split; [now left|].
    unfold transmitTime, satellitePosition, latLong.
    now rewrite !(front_cons _ _ h rest E).
  - assert (Z0 : size (snd (processSamples d ch)) = 0%nat).
    { destruct (size (snd (processSamples d ch))) eqn:E; [reflexivity|].
      assert (T : fst (processSamples d ch) = true)
        by (apply processSamples_result; lia).
      congruence. }
    unfold transmitTime, satellitePosition, latLong.
    repeat split; now apply front_none.
Qed.

(** X7: a channel with a single hypothesis is a plain wrapper of it.
    processSamples returns what the hypothesis's own processSamples
    returns, keeps the hypothesis as that call left it (sync is not
    applied) or drops it on failure, and from then on the consensus block
    is never entered again. *)
Theorem single_hypothesis_transparent (d : fftwVector) (ch : TrackingChannel)
    (h : Hyp) :
  signalTrackers_ ch = [h] ->
  fst (processSamples d ch) = fst (tracker_processSamples d (hyp_obj h))
  /\ signalTrackers_ (snd (processSamples d ch))
     = (if fst (tracker_processSamples d (hyp_obj h))
        then [{| hyp_bias := hyp_bias h;
                 hyp_obj := snd (tracker_processSamples d (hyp_obj h)) |}]
        else [])
  /\ forall calls d', consensus_guard (dispatched d' (run calls ch)) = false.
Proof.
  intros E.
  assert (Small : forall calls d',
             consensus_guard (dispatched d' (run calls ch)) = false).
  { intros calls d'. apply consensus_guard_small.
    pose proof (run_size calls ch) as L1.
    pose proof (dispatch_length d' (signalTrackers_ (run calls ch))) as L2.
    unfold size in *. rewrite E in L1. unfold dispatched. cbn [signalTrackers_].
    simpl in L1. lia. }
  pose proof (Small [] d) as G. change (run [] ch) with ch in G.
  assert (T : signalTrackers_ (snd (processSamples d ch))
              = (if fst (tracker_processSamples d (hyp_obj h))
                 then [{| hyp_bias := hyp_bias h;
                          hyp_obj := snd (tracker_processSamples d (hyp_obj h)) |}]
                 else [])).
  { rewrite processSamples_trackers, G, E. simpl.
    destruct (tracker_processSamples d (hyp_obj h)) as [[|] t']; reflexivity. }
  split; [|split; [exact T|exact Small]].
  unfold processSamples at 1. cbn [fst].
  fold (snd (processSamples d ch)). unfold size.
  change (signalTrackers_ (processSamples_channel d ch))
    with (signalTrackers_ (snd (processSamples d ch))).
  rewrite T. destruct (fst (tracker_processSamples d (hyp_obj h))); reflexivity.
Qed.

(** X8: in a reachable channel the tie-break of the consensus block
    resolves toward the lowest frequency bias: the hypothesis a consensus
    leaves has a bias no larger than that of any hypothesis that reported
    fullTrack after sync(). *)
Theorem tie_break_least_bias (d : fftwVector) (ch : TrackingChannel) (h : Hyp) :
  reachable ch ->
  consensus_guard (dispatched d ch) = true ->
  signalTrackers_ (snd (processSamples d ch)) = [h] ->
  forall h', In h' (signalTrackers_ (sync (dispatched d ch))) ->
             hyp_state h' = fullTrack ->
             hyp_bias h <= hyp_bias h'.
Proof.
  intros R G E h' Hin Hl.
  rewrite processSamples_trackers, G in E.
  unfold sync, dispatched in Hin. cbn [signalTrackers_] in Hin.
  set (synced := map sync_hyp (dispatch d (signalTrackers_ ch))) in *.
  assert (Srt : StronglySorted Z.lt (map hyp_bias (filter locked synced))).
  { apply (subseq_sorted Z.lt _ ladder); [|apply ladder_sorted].
    eapply subseq_trans; [apply filter_locked_biases|].
    unfold synced. rewrite sync_biases.
    eapply subseq_trans; [apply dispatch_biases|].
    now apply reachable_biases. }
  assert (Hf : In h' (filter locked synced))
    by (apply filter_In; split; [exact Hin|now apply locked_true]).
  destruct (filter locked synced) as [|x l]; [destruct Hf|].
  simpl in E. injection E as ->. simpl in Srt.
  apply StronglySorted_inv in Srt. destruct Srt as [_ F].
  rewrite Forall_forall in F.
  destruct Hf as [->|Hf]; [lia|].
  apply Z.lt_le_incl, F. now apply in_map.
Qed.

(** X9: processSamples keeps no hypothesis that failed and makes no new
    one.  Every hypothesis it leaves is one of the hypotheses it started
    with (same bias) whose own processSamples returned true on this
    packet, and its tracker is what that call produced, with sync applied
    once when the consensus block was entered and not otherwise. *)
Theorem survivors_sustained (d : fftwVector) (ch : TrackingChannel) (h' : Hyp) :
  In h' (signalTrackers_ (snd (processSamples d ch))) ->
  exists h, In h (signalTrackers_ ch)
            /\ hyp_bias h' = hyp_bias h
            /\ fst (tracker_processSamples d (hyp_obj h)) = true
            /\ hyp_obj h'
               = (if consensus_guard (dispatched d ch)
                  then tracker_sync (snd (tracker_processSamples d (hyp_obj h)))
                  else snd (tracker_processSamples d (hyp_obj h))).
Proof.
  rewrite processSamples_trackers.
  destruct (consensus_guard (dispatched d ch)).
  - intros Hin. apply firstn_In in Hin. apply filter_In in Hin.
    destruct Hin as [Hin _]. apply in_map_iff in Hin.
    destruct Hin as (x & <- & Hx).
    destruct (dispatch_origin d _ x Hx) as (h & Hh & Hb & Hok & Ho).
    exists h. cbn [sync_hyp hyp_bias hyp_obj]. rewrite Ho. auto.
  - intros Hin. destruct (dispatch_origin d _ h' Hin) as (h & Hh & Hb & Hok & Ho).
    exists h. auto.
Qed.

(** X10: the consensus block runs at most once in the life of a channel.
    After a call that entered it, no later call enters it again, whatever
    packets and sync calls follow. *)
Theorem consensus_only_once (d : fftwVector) (ch : TrackingChannel)
    (calls : list Call) (d' : fftwVector) :
  consensus_guard (dispatched d ch) = true ->
  consensus_guard (dispatched d' (run calls (snd (processSamples d ch)))) = false.
Proof.
  intros G. apply consensus_guard_small.
  assert (L0 : (size (snd (processSamples d ch)) <= 1)%nat).
  { unfold size. rewrite processSamples_trackers, G. apply firstn_le_length. }
  pose proof (run_size calls (snd (processSamples d ch))) as L1.
  pose proof (dispatch_length d'
                (signalTrackers_ (run calls (snd (processSamples d ch))))) as L2.
  unfold size in *. unfold dispatched. cbn [signalTrackers_]. lia.
Qed.

(** X11: hypotheses only leave.  After any sequence of processSamples and
    sync calls the biases of the live hypotheses are those the channel had
    before with some removed, the others in their order: a removed
    hypothesis never comes back and none is added or moved. *)
Theorem hypotheses_only_leave (ch : TrackingChannel) (calls : list Call) :
  subseq (biases (run calls ch)) (biases ch)
  /\ (forall b, In b (biases (run calls ch)) -> In b (biases ch)).
Proof.
  pose proof (run_biases calls ch) as S. split; [exact S|].
  intros b. now apply subseq_In.
Qed.

End ChannelLife.

(** ** The claims on concrete banks *)

Section Examples.
Import Fixture.
#[local] Existing Instance test_states.
#[local] Existing Instance scripted.
#[local] Existing Instance counter32.

(** Scenario A of the spec: the eight outer trackers fail one pair after
    the other, the tracker at 0 Hz reaches full lock and is the one
    left. *)
Example scenario_A :
  map (fun n => biases (fed n only_centre)) [0; 1; 2; 3; 4; 5]%nat
  = [ladder; [-2000; -1500; -1000; 0; 1000; 1500; 2000];
     [-2000; -1500; 0; 1500; 2000]; [-2000; 0; 2000]; [0]; [0]]
  /\ state (fed 5 only_centre) = fullTrack.
Proof. split; vm_compute; reflexivity. Qed.

(** C1 as stated fails.  A bank of 9 whose state() is fullTrack before
    the call is left with 0 hypotheses when every tracker fails on the
    packet, with all 9 when every tracker sustains the packet but leaves
    full lock on it, and with 0 when sync() takes every tracker out of
    full lock. *)
Lemma full_lock_before_call_not_enough :
  ((2 <= size (bank all_fail))%nat
   /\ state (bank all_fail) = fullTrack
   /\ size (snd (processSamples packet (bank all_fail))) = 0%nat)
  /\ ((2 <= size (bank all_drop))%nat
      /\ state (bank all_drop) = fullTrack
      /\ size (snd (processSamples packet (bank all_drop))) = 9%nat)
  /\ ((2 <= size (bank sync_demotes))%nat
      /\ state (bank sync_demotes) = fullTrack
      /\ size (snd (processSamples packet (bank sync_demotes))) = 0%nat).
Proof. repeat split; vm_compute; reflexivity || lia. Qed.

(** The bank [mixed]: after the packet 8 trackers remain, two of them at
    full lock; the call leaves one. *)
Lemma consensus_converges_witness :
  size (snd (processSamples packet (bank mixed))) = 1%nat
  /\ fst (processSamples packet (bank mixed)) = true.
Proof.
  apply consensus_converges.
  - vm_compute. lia.
  - vm_compute. reflexivity.
  - exists (hyp_of (-500) (tracker tsFullTrack [] (-500))). split.
    + vm_compute. do 2 right. left. reflexivity.
    + vm_compute. reflexivity.
Defined.

(** C2 as stated fails.  In a bank of 9 whose trackers all sustain the
    packet and reach full lock on it, no tracker reports failure, and the
    call still removes 8 of them. *)
Lemma consensus_removes_sustaining :
  map hyp_bias (map snd (filter fst (map (answer packet) (signalTrackers_ (bank all_lock)))))
  = ladder
  /\ biases (snd (processSamples packet (bank all_lock))) = [-2000].
Proof. split; vm_compute; reflexivity. Qed.

(** The bank [all_drop]: no consensus, the call leaves the nine trackers
    that sustained the packet.  The bank [mixed]: the tracker left at
    -500 Hz comes from a constructed tracker that sustained the packet. *)
Lemma processSamples_dispatches_witness :
  signalTrackers_ (snd (processSamples packet (bank all_drop)))
  = map snd (filter fst (map (answer packet) (signalTrackers_ (bank all_drop))))
  /\ exists h, In h (signalTrackers_ (bank mixed))
               /\ hyp_bias (hyp_of (-500) (tracker tsFullTrack [] (-500))) = hyp_bias h
               /\ fst (tracker_processSamples packet (hyp_obj h)) = true
               /\ hyp_obj (hyp_of (-500) (tracker tsFullTrack [] (-500)))
                  = (if consensus_guard (dispatched packet (bank mixed))
                     then tracker_sync (snd (tracker_processSamples packet (hyp_obj h)))
                     else snd (tracker_processSamples packet (hyp_obj h))).
Proof.
  split.
  - destruct (processSamples_dispatches packet (bank all_drop))
      as (_ & _ & _ & _ & _ & K & _).
    apply K. vm_compute. reflexivity.
  - destruct (processSamples_dispatches packet (bank mixed))
      as (_ & _ & _ & K & _).
    apply K. vm_compute. left. reflexivity.
Defined.

(** The empty bank reports lossOfLock; the bank [mixed] after one packet
    reports the state of its tracker at +500 Hz. *)
Lemma state_is_maximum_witness :
  state (fed 1 all_fail) = lossOfLock
  /\ State_le (hyp_state (hyp_of 500 (tracker tsFullTrack [] 500)))
              (state (dispatched packet (bank mixed)))
  /\ exists h, In h (signalTrackers_ (dispatched packet (bank mixed)))
               /\ state (dispatched packet (bank mixed)) = hyp_state h.
Proof.
  split; [|split].
  - apply (state_is_maximum (fed 1 all_fail)). vm_compute. reflexivity.
  - apply (state_is_maximum (dispatched packet (bank mixed))).
    vm_compute. do 4 right. left. reflexivity.
  - apply (state_is_maximum (dispatched packet (bank mixed))).
    vm_compute. discriminate.
Defined.

(** The bank [mixed]: the trackers at -500 Hz and +500 Hz are both at
    full lock, the one at -500 Hz is kept. *)
Lemma tie_break_keeps_first_witness :
  signalTrackers_ (snd (processSamples packet (bank mixed)))
  = [hyp_of (-500) (tracker tsFullTrack [] (-500))].
Proof.
  apply (tie_break_keeps_first packet (bank mixed) _
           [hyp_of 500 (tracker tsFullTrack [] 500)]).
  - vm_compute. reflexivity.
  - vm_compute. reflexivity.
  - simpl. lia.
Defined.

(** C7 as stated fails.  The bank whose trackers all failed is a
    reachable channel with zero hypotheses, and transmitTime() has no
    value on it: front() of the empty collection is undefined. *)
Lemma transmitTime_of_empty_bank :
  reachable (fed 1 all_fail)
  /\ size (fed 1 all_fail) = 0%nat
  /\ transmitTime (fed 1 all_fail) = None.
Proof.
  split; [apply run_reachable, reach_new|].
  split; vm_compute; reflexivity.
Qed.

(** The bank [mixed] after one packet holds the tracker at -500 Hz, whose
    transmit time it reports. *)
Lemma transmitTime_defined_iff_witness :
  transmitTime (fed 1 mixed) = Some (-500).
Proof.
  destruct (transmitTime_defined_iff (fed 1 mixed)) as [_ K].
  apply (K (hyp_of (-500) (tracker tsFullTrack [] (-500))) []).
  vm_compute. reflexivity.
Defined.

(** The surface [peaked] has confidence 12000/1011 against its mean: the
    peak at 500 Hz, code phase 2, is found. *)
Lemma search_threshold_witness :
  Search.found (Search.search Search.mean peaked) = true
  /\ In {| Search.bin_freq := 500; Search.bin_code := 2; Search.bin_mag := 1000 |}
        (Search.bins peaked)
  /\ forall b, In b (Search.bins peaked) -> (Search.bin_mag b <= 1000)%Q.
Proof.
  apply (proj2 (proj2 (SearchFacts.search_threshold Search.mean peaked))).
  vm_compute. discriminate.
Defined.

(** Scenario A after three packets holds the trackers at -2000, 0 and
    +2000 Hz and answers from the one at -2000 Hz. *)
Lemma front_is_least_bias_witness :
  reachable (fed 3 only_centre)
  /\ biases (fed 3 only_centre) = [-2000; 0; 2000]
  /\ transmitTime (fed 3 only_centre) = Some (-2000).
Proof.
  assert (R : reachable (fed 3 only_centre)) by apply run_reachable, reach_new.
  split; [exact R|]. split; [vm_compute; reflexivity|].
  destruct (front_is_least_bias _ R) as (_ & _ & F).
  destruct (F (hyp_of (-2000) (tracker tsAcquiring [(false, tsLossOfLock)] (-2000)))
              [hyp_of 0 (tracker tsAcquiring [(true, tsAcquiring); (true, tsFullTrack)] 0);
               hyp_of 2000 (tracker tsAcquiring [(false, tsLossOfLock)] 2000)])
    as (_ & T & _).
  - vm_compute. reflexivity.
  - exact T.
Defined.
End Examples.

(** ** The further properties on concrete banks *)

Section LifeExamples.
Import Fixture.
#[local] Existing Instance test_states.
#[local] Existing Instance scripted.
#[local] Existing Instance counter32.

(** The bank [mixed] reports fullTrack after its first packet and holds
    the tracker at -500 Hz alone. *)
Lemma full_lock_means_resolved_witness :
  exists h, signalTrackers_ (snd (processSamples packet (bank mixed))) = [h]
            /\ hyp_state h = fullTrack
            /\ transmitTime (snd (processSamples packet (bank mixed)))
               = Some (tracker_transmitTime (hyp_obj h)).
Proof.
  apply full_lock_means_resolved.
  - intros E. vm_compute in E. discriminate E.
  - vm_compute. reflexivity.
Defined.

(** The bank [mixed] enters the consensus block on its first packet. *)
Lemma consensus_outcome_witness :
  (size (snd (processSamples packet (bank mixed))) <= 1)%nat
  /\ (size (snd (processSamples packet (bank mixed))) = 0%nat
      <-> forall h, In h (signalTrackers_ (sync (dispatched packet (bank mixed)))) ->
                    hyp_state h <> fullTrack)
  /\ (size (snd (processSamples packet (bank mixed))) = 1%nat ->
      state (snd (processSamples packet (bank mixed))) = fullTrack).
Proof.
  apply consensus_outcome. vm_compute. reflexivity.
Defined.

(** The bank [all_fail] is exhausted by its first packet; a sync and a
    second packet later it still is. *)
Lemma exhausted_is_final_witness :
  size (run [CallSync; CallProcessSamples packet]
            (snd (processSamples packet (bank all_fail)))) = 0%nat
  /\ state (run [CallSync; CallProcessSamples packet]
                (snd (processSamples packet (bank all_fail)))) = lossOfLock
  /\ fst (processSamples packet
            (run [CallSync; CallProcessSamples packet]
                 (snd (processSamples packet (bank all_fail))))) = false
  /\ transmitTime (run [CallSync; CallProcessSamples packet]
                       (snd (processSamples packet (bank all_fail)))) = None.
Proof.
  apply exhausted_is_final. vm_compute. reflexivity.
Defined.

(** The accessors are defined after the first packet of [mixed] and
    undefined after the first packet of [all_fail]. *)
Lemma accessors_follow_result_witness :
  (exists h, In h (signalTrackers_ (snd (processSamples packet (bank mixed))))
             /\ transmitTime (snd (processSamples packet (bank mixed)))
                = Some (tracker_transmitTime (hyp_obj h))
             /\ satellitePosition (snd (processSamples packet (bank mixed))) noon
                = Some (tracker_satellitePosition (hyp_obj h) noon)
             /\ latLong (snd (processSamples packet (bank mixed))) noon
                = Some (tracker_latLong (hyp_obj h) noon))
  /\ (transmitTime (snd (processSamples packet (bank all_fail))) = None
      /\ satellitePosition (snd (processSamples packet (bank all_fail))) noon = None
      /\ latLong (snd (processSamples packet (bank all_fail))) noon = None).
Proof.
  split.
  - apply (proj1 (accessors_follow_result packet (bank mixed) noon)).
    vm_compute. reflexivity.
  - apply (proj2 (accessors_follow_result packet (bank all_fail) noon)).
    vm_compute. reflexivity.
Defined.

(** After its first packet [mixed] holds the tracker at -500 Hz alone; the
    second packet goes to that tracker only. *)
Lemma single_hypothesis_transparent_witness :
  fst (processSamples packet (fed 1 mixed)) = true
  /\ signalTrackers_ (snd (processSamples packet (fed 1 mixed)))
     = [hyp_of (-500) (tracker tsFullTrack [] (-500))].
Proof.
  destruct (single_hypothesis_transparent packet (fed 1 mixed)
              (hyp_of (-500) (tracker tsFullTrack [] (-500))))
    as (R & T & _).
  - vm_compute. reflexivity.
  - split; [exact R | exact T].
Defined.

(** In [mixed] the trackers at -500 Hz and +500 Hz lock together; the one
    kept is not above the other. *)
Lemma tie_break_least_bias_witness :
  hyp_bias (hyp_of (-500) (tracker tsFullTrack [] (-500)))
  <= hyp_bias (hyp_of 500 (tracker tsFullTrack [] 500)).
Proof.
  apply (tie_break_least_bias packet (bank mixed)).
  - apply reach_new.
  - vm_compute. reflexivity.
  - vm_compute. reflexivity.
  - vm_compute. do 4 right. left. reflexivity.
  - vm_compute. reflexivity.
Defined.

(** The tracker [mixed] is left with comes from the constructed tracker at
    -500 Hz, which sustained the packet and then received sync. *)
Lemma survivors_sustained_witness :
  exists h, In h (signalTrackers_ (bank mixed))
            /\ hyp_bias (hyp_of (-500) (tracker tsFullTrack [] (-500))) = hyp_bias h
            /\ fst (tracker_processSamples packet (hyp_obj h)) = true
            /\ hyp_obj (hyp_of (-500) (tracker tsFullTrack [] (-500)))
               = (if consensus_guard (dispatched packet (bank mixed))
                  then tracker_sync (snd (tracker_processSamples packet (hyp_obj h)))
                  else snd (tracker_processSamples packet (hyp_obj h))).
Proof.
  apply (survivors_sustained packet (bank mixed)).
  vm_compute. left. reflexivity.
Defined.
(** [mixed] resolves on its first packet; two packets and a sync later
    the consensus block is not entered. *)
Lemma consensus_only_once_witness :
  consensus_guard
    (dispatched packet
       (run [CallProcessSamples packet; CallSync]
            (snd (processSamples packet (bank mixed))))) = false.
Proof.
  apply consensus_only_once. vm_compute. reflexivity.
Defined.

(** Two packets into Scenario A the hypothesis at -1500 Hz is still
    live; it was there at construction. *)
Lemma hypotheses_only_leave_witness :
  In (-1500) (biases (bank only_centre)).
Proof.
  apply (proj2 (hypotheses_only_leave (bank only_centre)
                  [CallProcessSamples packet; CallProcessSamples packet])).
  vm_compute. right. left. reflexivity.
Defined.
End LifeExamples.
